(** * ai-pashu: the farmer assistant endpoint of [main.py]

    A shallow embedding of the request handler [farmer_husbandry_assistant]
    with the Python string operations it relies on, the in-memory session
    dictionary [chat_sessions] and the external model provider as an oracle. *)

From Stdlib Require Import NArith Ascii String List Lia.
From stdpp Require Import base option list gmap.

Local Open Scope N_scope.
Local Open Scope nat_scope.
Local Open Scope list_scope.

(** ** Python strings

    A Python [str] is a sequence of Unicode code points. *)

Module PyStr.

Abbreviation char := N (only parsing).
Abbreviation str := (list N) (only parsing).

(** An ASCII literal of the source as a [str]. *)
Definition lit (s : string) : str :=
  List.map N_of_ascii (list_ascii_of_string s).

(** [str.isspace] on one code point, the set used by [str.strip()] when it
    is called without an argument. *)
Definition isspace (c : char) : bool :=
  ((9 <=? c) && (c <=? 13))%N
  || ((28 <=? c) && (c <=? 32))%N
  || (c =? 133)%N || (c =? 160)%N || (c =? 5760)%N
  || ((8192 <=? c) && (c <=? 8202))%N
  || (c =? 8232)%N || (c =? 8233)%N || (c =? 8239)%N
  || (c =? 8287)%N || (c =? 12288)%N.

(** [s.lstrip()] *)
Fixpoint lstrip (s : str) : str :=
  match s with
  | [] => []
  | c :: s' => if isspace c then lstrip s' else s
  end.

(** [s.rstrip()] *)
Definition rstrip (s : str) : str := rev (lstrip (rev s)).

(** [s.strip()] *)
Definition strip (s : str) : str := rstrip (lstrip s).

(** [s.startswith(m)] *)
Fixpoint startswith (m s : str) : bool :=
  match m, s with
  | [], _ => true
  | _ :: _, [] => false
  | a :: m', b :: s' => (a =? b)%N && startswith m' s'
  end.

(** [s.find(m)], with [None] for Python's -1. *)
Fixpoint find (m s : str) : option nat :=
  if startswith m s then Some 0
  else match s with
       | [] => None
       | _ :: s' => option_map S (find m s')
       end.

(** [m in s] *)
Definition contains (m s : str) : bool :=
  match find m s with Some _ => true | None => false end.

(** The number of positions of [s] at which [m] starts.  For a marker no
    proper suffix of which is a prefix of it, as "Context:", this is
    [s.count(m)]. *)
Fixpoint occurrences (m s : str) : nat :=
  (if startswith m s then 1 else 0) +
  match s with
  | [] => 0
  | _ :: s' => occurrences m s'
  end.

(** [s.split(sep, 1)] for a non-empty separator: the list of one or two
    parts. *)
Definition split1 (sep s : str) : list str :=
  match find sep s with
  | Some i => [take i s; drop (i + length sep) s]
  | None => [s]
  end.

(** [s.replace(old, new)]: a scan from the left that replaces every
    non-overlapping occurrence.  [skip] counts the characters of a matched
    occurrence that are still to be passed over. *)
Fixpoint replace_from (old new : str) (skip : nat) (s : str) : str :=
  match s with
  | [] => []
  | c :: s' =>
      match skip with
      | S k => replace_from old new k s'
      | O =>
          if startswith old s
          then new ++ replace_from old new (length old - 1) s'
          else c :: replace_from old new 0 s'
      end
  end.

Definition replace (old new s : str) : str :=
  match old with
  | [] => new ++ flat_map (fun c => c :: new) s
  | _ :: _ => replace_from old new 0 s
  end.

(** [sep.join(parts)] *)
Fixpoint join (sep : str) (parts : list str) : str :=
  match parts with
  | [] => []
  | [p] => p
  | p :: ps => p ++ sep ++ join sep ps
  end.

(** [s.removeprefix(p)] *)
Definition removeprefix (p s : str) : str :=
  if startswith p s then drop (length p) s else s.

End PyStr.

Import PyStr.

(** ** Exceptions and results

    The exception classes the handler can meet.  [GoogleAPIError] stands for
    [google.api_core.exceptions.GoogleAPIError] and all its subclasses;
    the other constructors are classes outside that hierarchy. *)

Inductive exn : Type :=
  | GoogleAPIError (message : str)
  | ValueError (message : str)
  | IndexError
  | OtherException (message : str).

(** [isinstance(e, google.api_core.exceptions.GoogleAPIError)] *)
Definition is_GoogleAPIError (e : exn) : bool :=
  match e with
  | GoogleAPIError _ => true
  | _ => false
  end.

Inductive result (A : Type) : Type :=
  | Return (a : A)
  | Raise (e : exn).
Arguments Return {A} a.
Arguments Raise {A} e.

(** Sequencing: an exception of the first step ends the block. *)
#[global] Instance result_bind : MBind result := fun A B k r =>
  match r with
  | Return a => k a
  | Raise e => Raise e
  end.

(** [parts[i]] on a Python list. *)
Definition index {A : Type} (parts : list A) (i : nat) : result A :=
  match parts !! i with
  | Some p => Return p
  | None => Raise IndexError
  end.

(** ** Data model *)

Record FarmerQuery : Type := {
  query : str;
  session_id : str
}.

Record FarmerResponse : Type := {
  answer : str;
  context : str;
  note : str
}.

(** One element of a session's list: the dict with keys "query" and
    "answer". *)
Record Exchange : Type := {
  item_query : str;
  item_answer : str
}.

(** [chat_sessions : Dict[str, List[Dict[str, str]]]] *)
Abbreviation sessions := (gmap (list N) (list Exchange)) (only parsing).

(** ** Constants of the source *)

Definition nl : str := [10%N].

Definition default_session_id : str := Eval vm_compute in lit "default".

Definition default_note : str := Eval vm_compute in
  lit "This is AI-generated information. Please consult a veterinary expert for critical issues.".

Definition Context_marker : str := Eval vm_compute in lit "Context:".
Definition Answer_label : str := Eval vm_compute in lit "Answer:".

Definition generic_context : str := Eval vm_compute in
  lit "This advice is important for improving animal health and productivity in practical farming conditions.".

Definition fallback_answer : str := Eval vm_compute in
  lit "Sorry, I am unable to answer your query right now.".
Definition fallback_context : str := Eval vm_compute in
  lit "Try again later or consult a nearby veterinary expert.".

Definition model_name : str := Eval vm_compute in lit "gemini-2.0-flash".

Definition previous_conversation_header : str := Eval vm_compute in
  lit "Previous conversation:" ++ nl.

(** The pieces of a format string: literal text and the two named fields. *)
Inductive piece : Type :=
  | Text (s : str)
  | Field_query
  | Field_previous_context.

Definition template_head : str := Eval vm_compute in
  lit "You are an expert in animal husbandry. A farmer has asked the following question:"
  ++ nl ++ nl.

(** The arrow of the source is U+2192. *)
Definition template_tail : str := Eval vm_compute in
  nl ++ lit "Give the response in two parts:" ++ nl
  ++ lit "1. Answer " ++ [8594%N]
  ++ lit " direct and practical guidance in simple language." ++ nl
  ++ lit "2. Context " ++ [8594%N]
  ++ lit " explain why this answer is important, provide background info, preventive measures, or related best practices."
  ++ nl
  ++ lit "Keep the explanation simple and actionable for farmers.".

Definition HUSBANDRY_PROMPT_TEMPLATE : list piece :=
  [Text template_head; Field_query; Text (nl ++ nl);
   Field_previous_context; Text template_tail].

(** [template.format(query=..., previous_context=...)]: the values are put in
    as they are. *)
Definition format (template : list piece) (query previous_context : str) : str :=
  flat_map (fun p => match p with
                     | Text s => s
                     | Field_query => query
                     | Field_previous_context => previous_context
                     end) template.

(** ** The handler *)

(** The f-string [f"Farmer: {item['query']}\nAI: {item['answer']}"]. *)
Definition farmer_line : str := Eval vm_compute in lit "Farmer: ".
Definition ai_line : str := Eval vm_compute in nl ++ lit "AI: ".

Definition render_item (item : Exchange) : str :=
  farmer_line ++ item_query item ++ ai_line ++ item_answer item.

(** [chat_sessions.get(session_id, [])] *)
Definition get_history (chat_sessions : sessions) (sid : str) : list Exchange :=
  default [] (chat_sessions !! sid).

(** Lines 60-64: the rendering of the stored exchanges. *)
Definition previous_context_text (history : list Exchange) : str :=
  match history with
  | [] => []
  | _ :: _ => previous_conversation_header ++ join nl (List.map render_item history)
  end.

(** Lines 67-70. *)
Definition build_prompt (q : str) (history : list Exchange) : str :=
  format HUSBANDRY_PROMPT_TEMPLATE (strip q) (previous_context_text history).

(** Lines 75-84: from the text of the provider's response to the pair
    [(answer_text, context_text)]. *)
Definition split_response (text : str) : result (str * str) :=
  let text_output := strip text in
  if contains Context_marker text_output then
    let parts := split1 Context_marker text_output in
    p0 ← index parts 0;
    p1 ← index parts 1;
    Return (strip (replace Answer_label [] p0), strip p1)
  else
    Return (text_output, generic_context).

(** The provider: from the model identifier and the prompt to the text of
    the response, or to the exception raised while the model is built, called
    or its [text] is read. *)
Abbreviation provider := (list N -> list N -> result (list N)) (only parsing).

(** Lines 72-88: the [try] block with its [except] clause. *)
Definition attempt (generate : provider) (prompt : str) : result (str * str) :=
  match (text ← generate model_name prompt; split_response text) with
  | Return r => Return r
  | Raise e =>
      if is_GoogleAPIError e
      then Return (fallback_answer, fallback_context)
      else Raise e
  end.

(** [chat_sessions.setdefault(sid, []).append(item)] *)
Definition append_exchange (chat_sessions : sessions) (sid : str) (item : Exchange)
  : sessions :=
  <[sid := get_history chat_sessions sid ++ [item]]> chat_sessions.

(** The endpoint.  It returns the response, or the exception that leaves the
    handler, together with the session dictionary afterwards. *)
Definition farmer_husbandry_assistant (generate : provider) (req : FarmerQuery)
    (chat_sessions : sessions) : result FarmerResponse * sessions :=
  let history := get_history chat_sessions (session_id req) in
  let prompt := build_prompt (query req) history in
  match attempt generate prompt with
  | Raise e => (Raise e, chat_sessions)
  | Return (answer_text, context_text) =>
      (Return {| answer := answer_text; context := context_text; note := default_note |},
       append_exchange chat_sessions (session_id req)
         {| item_query := query req; item_answer := answer_text |})
  end.

(** The dictionaries that a run of requests can lead to. *)
Inductive later : sessions -> sessions -> Prop :=
  | later_refl s : later s s
  | later_step s generate req r s' s'' :
      farmer_husbandry_assistant generate req s = (r, s') ->
      later s' s'' ->
      later s s''.

(** ** Notions of the specification *)

(** The answer as the specification words it: the text before the marker,
    trimmed, with a leading "Answer:" removed and trimmed again. *)
Definition answer_prefix_stripped (before : str) : str :=
  strip (removeprefix Answer_label (strip before)).

(** A query that starts or ends with a whitespace character. *)
Definition has_outer_whitespace (q : str) : bool :=
  match q with [] => false | c :: _ => isspace c end
  || match rev q with [] => false | c :: _ => isspace c end.

(** ** The string operations on small inputs *)

Example strip_both_ends : strip (lit "  a b  ") = lit "a b".
Proof. reflexivity. Qed.

Example strip_line_breaks : strip (nl ++ lit "a" ++ nl ++ [160%N]) = lit "a".
Proof. reflexivity. Qed.

Example replace_every_occurrence :
  replace (lit "ab") [] (lit "xababyaab") = lit "xya".
Proof. reflexivity. Qed.

Example split1_first_separator :
  split1 (lit "::") (lit "a::b::c") = [lit "a"; lit "b::c"].
Proof. reflexivity. Qed.

Example join_three : join (lit ",") [lit "a"; lit "b"; lit "c"] = lit "a,b,c".
Proof. reflexivity. Qed.

Example prompt_two_exchanges :
  previous_context_text
    [{| item_query := lit "q1"; item_answer := lit "a1" |};
     {| item_query := lit "q2"; item_answer := lit "a2" |}]
  = lit "Previous conversation:" ++ nl ++ lit "Farmer: q1" ++ nl ++ lit "AI: a1"
    ++ nl ++ lit "Farmer: q2" ++ nl ++ lit "AI: a2".
Proof. reflexivity. Qed.

(** ** Whitespace stripping *)

Section Strip.

Lemma forallb_isspace_rev (ws : list N) :
  forallb isspace (rev ws) = forallb isspace ws.
Proof.
  induction ws as [|c ws IH]; simpl; [reflexivity|].
  rewrite forallb_app, IH. simpl. rewrite andb_true_r. apply andb_comm.
Qed.

Lemma lstrip_nonspace (c : N) (s : list N) :
  isspace c = false -> lstrip (c :: s) = c :: s.
Proof. intros Hc. simpl. now rewrite Hc. Qed.

Lemma lstrip_app_keep (pre : list N) (c : N) (s : list N) :
  isspace c = false -> lstrip (pre ++ c :: s) = lstrip pre ++ c :: s.
Proof.
  intros Hc. induction pre as [|a pre IH]; simpl.
  - now rewrite Hc.
  - destruct (isspace a); [exact IH | reflexivity].
Qed.

Lemma rstrip_app_keep (a : list N) (c : N) (post : list N) :
  isspace c = false -> rstrip (a ++ c :: post) = a ++ c :: rstrip post.
Proof.
  intros Hc. unfold rstrip.
  rewrite rev_app_distr. simpl. rewrite <- app_assoc. simpl.
  rewrite lstrip_app_keep by exact Hc.
  rewrite rev_app_distr. simpl. rewrite rev_involutive.
  now rewrite <- app_assoc.
Qed.

Lemma lstrip_decomp (s : list N) :
  exists ws, s = ws ++ lstrip s /\ forallb isspace ws = true.
Proof.
  induction s as [|c s [ws [E F]]]; simpl.
  - now exists [].
  - destruct (isspace c) eqn:Hc.
    + exists (c :: ws). simpl. rewrite Hc, F. split; [now f_equal | reflexivity].
    + now exists [].
Qed.

Lemma lstrip_spaces (ws s : list N) :
  forallb isspace ws = true -> lstrip (ws ++ s) = lstrip s.
Proof.
  induction ws as [|c ws IH]; simpl; [reflexivity|].
  intros H. apply andb_true_iff in H as [Hc Hws]. rewrite Hc. now apply IH.
Qed.

Lemma lstrip_all_spaces (ws : list N) :
  forallb isspace ws = true -> lstrip ws = [].
Proof.
  intros H. rewrite <- (app_nil_r ws). now rewrite lstrip_spaces.
Qed.

Lemma lstrip_idem (s : list N) : lstrip (lstrip s) = lstrip s.
Proof.
  induction s as [|c s IH]; simpl; [reflexivity|].
  destruct (isspace c) eqn:Hc; [exact IH|]. simpl. now rewrite Hc.
Qed.

Lemma rstrip_idem (s : list N) : rstrip (rstrip s) = rstrip s.
Proof. unfold rstrip. now rewrite rev_involutive, lstrip_idem. Qed.

Lemma rstrip_decomp (s : list N) :
  exists ws, s = rstrip s ++ ws /\ forallb isspace ws = true.
Proof.
  destruct (lstrip_decomp (rev s)) as [ws [E F]].
  exists (rev ws). split.
  - unfold rstrip. rewrite <- rev_app_distr, <- E. now rewrite rev_involutive.
  - now rewrite forallb_isspace_rev.
Qed.

(** The two one-sided strips commute. *)
Lemma lstrip_rstrip (s : list N) : lstrip (rstrip s) = rstrip (lstrip s).
Proof.
  destruct (lstrip_decomp s) as [ws [E F]].
  destruct (lstrip s) as [|c t] eqn:L.
  - rewrite app_nil_r in E. subst ws.
    unfold rstrip at 1.
    rewrite (lstrip_all_spaces (rev s)) by now rewrite forallb_isspace_rev.
    reflexivity.
  - assert (Hc : isspace c = false).
    { destruct (isspace c) eqn:Hc; [|reflexivity].
      pose proof (lstrip_idem s) as I. rewrite L in I. simpl in I.
      rewrite Hc in I.
      assert (length (lstrip t) <= length t).
      { destruct (lstrip_decomp t) as [w [Et _]].
        rewrite Et at 2. rewrite length_app. lia. }
      rewrite I in H. simpl in H. lia. }
    rewrite E at 1. rewrite rstrip_app_keep by exact Hc.
    rewrite lstrip_spaces by exact F. rewrite lstrip_nonspace by exact Hc.
    symmetry. apply (rstrip_app_keep [] c t Hc).
Qed.

Lemma strip_lstrip (s : list N) : strip (lstrip s) = strip s.
Proof. unfold strip. now rewrite lstrip_idem. Qed.

Lemma strip_rstrip (s : list N) : strip (rstrip s) = strip s.
Proof. unfold strip. now rewrite lstrip_rstrip, rstrip_idem. Qed.

Lemma strip_spaces (ws s : list N) :
  forallb isspace ws = true -> strip (ws ++ s) = strip s.
Proof. intros H. unfold strip. now rewrite lstrip_spaces. Qed.

(** A string is its stripped form between two runs of whitespace. *)
Lemma strip_decomp (s : list N) :
  exists ws1 ws2, s = ws1 ++ strip s ++ ws2.
Proof.
  destruct (lstrip_decomp s) as [ws1 [E1 _]].
  destruct (rstrip_decomp (lstrip s)) as [ws2 [E2 _]].
  exists ws1, ws2. unfold strip. now rewrite <- E2.
Qed.

(** Stripping around a piece that starts and ends with a character that is
    not whitespace. *)
Lemma strip_around (pre : list N) (c1 : N) (mid : list N) (c2 : N) (post : list N) :
  isspace c1 = false -> isspace c2 = false ->
  strip (pre ++ c1 :: mid ++ c2 :: post)
  = lstrip pre ++ c1 :: mid ++ c2 :: rstrip post.
Proof.
  intros H1 H2. unfold strip.
  rewrite lstrip_app_keep by exact H1.
  change (lstrip pre ++ c1 :: mid ++ c2 :: post)
    with (lstrip pre ++ (c1 :: mid) ++ c2 :: post).
  rewrite app_assoc, rstrip_app_keep by exact H2.
  now rewrite <- app_assoc.
Qed.

End Strip.

(** ** Searching *)

Section Search.

Lemma startswith_app (m x y : list N) :
  length m <= length x -> startswith m (x ++ y) = startswith m x.
Proof.
  revert x. induction m as [|a m IH]; intros [|b x] H; simpl in *;
    try reflexivity; try lia.
  rewrite IH by lia. reflexivity.
Qed.

Lemma startswith_self (m y : list N) : startswith m (m ++ y) = true.
Proof.
  induction m as [|a m IH]; simpl; [reflexivity|].
  now rewrite N.eqb_refl, IH.
Qed.

Lemma startswith_refl (m : list N) : startswith m m = true.
Proof.
  induction m as [|a m IH]; simpl; [reflexivity|].
  now rewrite N.eqb_refl, IH.
Qed.

Lemma startswith_inv (m s : list N) :
  startswith m s = true -> s = m ++ drop (length m) s.
Proof.
  revert s. induction m as [|a m IH]; intros [|b s] H; simpl in *;
    try reflexivity; try discriminate.
  apply andb_true_iff in H as [E H]. apply N.eqb_eq in E. subst b.
  f_equal. now apply IH.
Qed.

Lemma find_cons_S (m : list N) (c : N) (s : list N) (i : nat) :
  find m (c :: s) = Some (S i) ->
  startswith m (c :: s) = false /\ find m s = Some i.
Proof.
  intros H. change (find m (c :: s))
    with (if startswith m (c :: s) then Some 0 else option_map S (find m s)) in H.
  destruct (startswith m (c :: s)); [discriminate|].
  split; [reflexivity|].
  destruct (find m s); simpl in H; congruence.
Qed.

Lemma find_cons_miss (m : list N) (c : N) (s : list N) :
  startswith m (c :: s) = false ->
  find m (c :: s) = option_map S (find m s).
Proof.
  intros H. change (find m (c :: s))
    with (if startswith m (c :: s) then Some 0 else option_map S (find m s)).
  now rewrite H.
Qed.

Lemma find_hit (m s : list N) : startswith m s = true -> find m s = Some 0.
Proof. intros H. destruct s; simpl; now rewrite H. Qed.

(** Where the first occurrence lies does not depend on what follows it. *)
Lemma find_first_app (m pre post : list N) :
  find m (pre ++ m) = Some (length pre) ->
  find m (pre ++ m ++ post) = Some (length pre).
Proof.
  induction pre as [|c pre IH]; intros H.
  - simpl. apply find_hit. apply startswith_self.
  - simpl in H. apply find_cons_S in H as [Hs Hf].
    simpl app. rewrite find_cons_miss.
    + rewrite (IH Hf). reflexivity.
    + rewrite <- Hs. change (c :: pre ++ m ++ post) with ((c :: pre) ++ m ++ post).
      rewrite app_assoc. apply startswith_app. simpl. rewrite length_app. lia.
Qed.

Lemma find_first_app_inv (m pre post : list N) :
  find m (pre ++ m ++ post) = Some (length pre) ->
  find m (pre ++ m) = Some (length pre).
Proof.
  induction pre as [|c pre IH]; intros H.
  - simpl. apply find_hit. apply startswith_refl.
  - simpl in H. apply find_cons_S in H as [Hs Hf].
    simpl app. rewrite find_cons_miss.
    + rewrite (IH Hf). reflexivity.
    + rewrite <- Hs. change (c :: pre ++ m ++ post) with ((c :: pre) ++ m ++ post).
      rewrite app_assoc. symmetry. apply startswith_app. simpl. rewrite length_app. lia.
Qed.

Lemma find_Some_split (m s : list N) (i : nat) :
  find m s = Some i ->
  s = take i s ++ m ++ drop (i + length m) s /\ length (take i s) = i.
Proof.
  revert i. induction s as [|c s IH]; intros i H.
  - simpl in H. destruct (startswith m []) eqn:Hs; [|discriminate].
    injection H as <-. split; [|reflexivity].
    apply startswith_inv in Hs. exact Hs.
  - destruct i as [|i].
    + split; [|reflexivity].
      change (find m (c :: s))
        with (if startswith m (c :: s) then Some 0 else option_map S (find m s)) in H.
      destruct (startswith m (c :: s)) eqn:Hs.
      * apply startswith_inv in Hs. exact Hs.
      * destruct (find m s); discriminate.
    + apply find_cons_S in H as [_ Hf]. destruct (IH _ Hf) as [E L].
      simpl. split; [now f_equal | now f_equal].
Qed.

Lemma find_lstrip (m pre : list N) :
  find m (pre ++ m) = Some (length pre) ->
  find m (lstrip pre ++ m) = Some (length (lstrip pre)).
Proof.
  induction pre as [|c pre IH]; intros H; [exact H|].
  simpl lstrip. destruct (isspace c); [|exact H].
  simpl in H. apply find_cons_S in H as [_ Hf]. now apply IH.
Qed.

Lemma contains_app (m a b : list N) : contains m (a ++ m ++ b) = true.
Proof.
  unfold contains. induction a as [|c a IH].
  - simpl app. now rewrite find_hit by apply startswith_self.
  - simpl app.
    change (find m (c :: a ++ m ++ b))
      with (if startswith m (c :: a ++ m ++ b) then Some 0
            else option_map S (find m (a ++ m ++ b))).
    destruct (startswith m (c :: a ++ m ++ b)); [reflexivity|].
    destruct (find m (a ++ m ++ b)); [reflexivity | discriminate].
Qed.

Lemma contains_split (m s : list N) :
  contains m s = true -> exists a b, s = a ++ m ++ b.
Proof.
  unfold contains. destruct (find m s) as [i|] eqn:H; [|discriminate].
  intros _. apply find_Some_split in H as [E _]. eauto.
Qed.

Lemma contains_infix (m a s b : list N) :
  contains m s = true -> contains m (a ++ s ++ b) = true.
Proof.
  intros H. apply contains_split in H as [x [y ->]].
  replace (a ++ (x ++ m ++ y) ++ b) with ((a ++ x) ++ m ++ (y ++ b))
    by now rewrite <- !app_assoc.
  apply contains_app.
Qed.

Lemma occurrences_app_ge (m pre s : list N) :
  occurrences m s <= occurrences m (pre ++ s).
Proof.
  induction pre as [|c pre IH]; [reflexivity|].
  simpl app. change (occurrences m (c :: pre ++ s))
    with ((if startswith m (c :: pre ++ s) then 1 else 0) + occurrences m (pre ++ s)).
  lia.
Qed.

Lemma occurrences_hit (m s : list N) :
  startswith m s = true -> 1 <= occurrences m s.
Proof. intros H. destruct s; simpl; rewrite H; lia. Qed.

(** A marker that occurs once occurs first where it occurs. *)
Lemma occurrences_one_first (m pre post : list N) :
  occurrences m (pre ++ m ++ post) = 1 ->
  find m (pre ++ m) = Some (length pre).
Proof.
  induction pre as [|c pre IH]; intros H.
  - simpl. apply find_hit. apply startswith_refl.
  - simpl app in *.
    change (occurrences m (c :: pre ++ m ++ post))
      with ((if startswith m (c :: pre ++ m ++ post) then 1 else 0)
            + occurrences m (pre ++ m ++ post)) in H.
    pose proof (occurrences_app_ge m pre (m ++ post)) as G.
    pose proof (occurrences_hit m (m ++ post) (startswith_self m post)) as G1.
    destruct (startswith m (c :: pre ++ m ++ post)) eqn:Hs; [lia|].
    change (0 + occurrences m (pre ++ m ++ post) = 1) in H.
    rewrite find_cons_miss.
    + rewrite IH by lia. reflexivity.
    + rewrite <- Hs. change (c :: pre ++ m ++ post) with ((c :: pre) ++ m ++ post).
      rewrite app_assoc. symmetry. apply startswith_app. simpl. rewrite length_app. lia.
Qed.

Lemma find_occurrences (m s : list N) (i : nat) :
  find m s = Some i -> occurrences m s = occurrences m (drop i s).
Proof.
  revert i. induction s as [|c s IH]; intros [|i] H; try reflexivity.
  apply find_cons_S in H as [Hs Hf].
  change (occurrences m (c :: s))
    with ((if startswith m (c :: s) then 1 else 0) + occurrences m s).
  rewrite Hs. simpl. now apply IH.
Qed.

Lemma occurrences_pos_contains (m s : list N) :
  1 <= occurrences m s -> contains m s = true.
Proof.
  unfold contains. induction s as [|c s IH]; intros H.
  - simpl in *. destruct (startswith m []); [reflexivity | lia].
  - change (occurrences m (c :: s))
      with ((if startswith m (c :: s) then 1 else 0) + occurrences m s) in H.
    change (find m (c :: s))
      with (if startswith m (c :: s) then Some 0 else option_map S (find m s)).
    destruct (startswith m (c :: s)); [reflexivity|].
    simpl in H. specialize (IH H). destruct (find m s); [reflexivity | discriminate].
Qed.

End Search.

(** ** The response splitter *)

Section Splitter.

Lemma space_not_A (c : N) : isspace c = true -> (65 =? c)%N = false.
Proof.
  intros H. destruct (N.eqb_spec 65 c) as [<-|]; [discriminate | reflexivity].
Qed.

Lemma replace_Answer_space (c : N) (s : list N) :
  isspace c = true ->
  replace Answer_label [] (c :: s) = c :: replace Answer_label [] s.
Proof.
  intros H.
  assert (S : startswith Answer_label (c :: s) = false).
  { unfold Answer_label. cbn [startswith]. now rewrite (space_not_A c H). }
  change (replace Answer_label [] (c :: s))
    with (if startswith Answer_label (c :: s)
          then [] ++ replace_from Answer_label [] (length Answer_label - 1) s
          else c :: replace_from Answer_label [] 0 s).
  now rewrite S.
Qed.

Lemma replace_Answer_spaces (ws s : list N) :
  forallb isspace ws = true ->
  replace Answer_label [] (ws ++ s) = ws ++ replace Answer_label [] s.
Proof.
  induction ws as [|c ws IH]; intros H; [reflexivity|].
  simpl in H. apply andb_true_iff in H as [Hc Hws].
  simpl app. rewrite replace_Answer_space by exact Hc.
  now rewrite IH.
Qed.

Lemma strip_replace_lstrip (pre : list N) :
  strip (replace Answer_label [] (lstrip pre))
  = strip (replace Answer_label [] pre).
Proof.
  destruct (lstrip_decomp pre) as [ws [E F]].
  rewrite E at 2. rewrite replace_Answer_spaces by exact F.
  now rewrite strip_spaces.
Qed.

Lemma strip_Context (pre post : list N) :
  strip (pre ++ Context_marker ++ post)
  = lstrip pre ++ Context_marker ++ rstrip post.
Proof.
  exact (strip_around pre 67%N (removelast (tail Context_marker)) 58%N post
           eq_refl eq_refl).
Qed.

(** The split at the first marker, whatever follows it. *)
Lemma split_response_first (pre post : list N) :
  find Context_marker (pre ++ Context_marker) = Some (length pre) ->
  split_response (pre ++ Context_marker ++ post)
  = Return (strip (replace Answer_label [] pre), strip post).
Proof.
  intros H. unfold split_response.
  rewrite strip_Context.
  pose proof (find_first_app _ _ (rstrip post) (find_lstrip _ _ H)) as F.
  unfold contains, split1. rewrite F.
  unfold index. simpl lookup. cbn [mbind result_bind].
  rewrite take_app_length, drop_app_add. cbn [skipn]. rewrite drop_0.
  now rewrite strip_replace_lstrip, strip_rstrip.
Qed.

(** Stripping neither adds nor removes a marker. *)
Lemma contains_Context_strip (s : list N) :
  contains Context_marker (strip s) = contains Context_marker s.
Proof.
  destruct (contains Context_marker s) eqn:H.
  - apply contains_split in H as [a [b ->]].
    rewrite strip_Context. apply contains_app.
  - destruct (contains Context_marker (strip s)) eqn:G; [|reflexivity].
    destruct (strip_decomp s) as [w1 [w2 E]].
    rewrite E, (contains_infix _ w1 _ w2 G) in H. discriminate.
Qed.

Lemma occurrences_Context_skip (post : list N) :
  occurrences Context_marker (Context_marker ++ post)
  = 1 + occurrences Context_marker post.
Proof. reflexivity. Qed.

End Splitter.

Section SplitterFacts.

Lemma startswith_Context_space (c : N) (s : list N) :
  isspace c = true -> startswith Context_marker (c :: s) = false.
Proof.
  intros H. unfold Context_marker. cbn [startswith].
  destruct (N.eqb_spec 67 c) as [<-|]; [discriminate | reflexivity].
Qed.

Lemma occurrences_Context_spaces_l (ws s : list N) :
  forallb isspace ws = true ->
  occurrences Context_marker (ws ++ s) = occurrences Context_marker s.
Proof.
  induction ws as [|c ws IH]; intros H; [reflexivity|].
  simpl in H. apply andb_true_iff in H as [Hc Hws].
  simpl app.
  change (occurrences Context_marker (c :: ws ++ s))
    with ((if startswith Context_marker (c :: ws ++ s) then 1 else 0)
          + occurrences Context_marker (ws ++ s)).
  rewrite startswith_Context_space by exact Hc. now rewrite IH.
Qed.

(** A string without whitespace starts [x ++ ws] only if it starts [x]. *)
Lemma startswith_spaces_r (m x ws : list N) :
  forallb isspace ws = true ->
  forallb (fun c => negb (isspace c)) m = true ->
  startswith m (x ++ ws) = startswith m x.
Proof.
  intros Hws Hm. revert x. induction m as [|a m IH]; intros x; [reflexivity|].
  simpl in Hm. apply andb_true_iff in Hm as [Ha Hm].
  destruct x as [|b x].
  - simpl. destruct ws as [|w ws]; [reflexivity|].
    simpl in Hws. apply andb_true_iff in Hws as [Hw _].
    destruct (N.eqb_spec a w) as [->|]; [|reflexivity].
    rewrite Hw in Ha. discriminate.
  - simpl. now rewrite IH.
Qed.

Lemma occurrences_Context_spaces_r (s ws : list N) :
  forallb isspace ws = true ->
  occurrences Context_marker (s ++ ws) = occurrences Context_marker s.
Proof.
  intros H.
  assert (St : forall x, startswith Context_marker (x ++ ws)
                         = startswith Context_marker x).
  { intros x. apply startswith_spaces_r; [exact H | reflexivity]. }
  induction s as [|c s IH].
  - simpl app. rewrite <- (app_nil_r ws).
    rewrite occurrences_Context_spaces_l by exact H. reflexivity.
  - simpl app.
    change (occurrences Context_marker (c :: s ++ ws))
      with ((if startswith Context_marker ((c :: s) ++ ws) then 1 else 0)
            + occurrences Context_marker (s ++ ws)).
    rewrite St, IH. reflexivity.
Qed.

(** Stripping keeps every occurrence of the marker. *)
Lemma occurrences_Context_strip (s : list N) :
  occurrences Context_marker (strip s) = occurrences Context_marker s.
Proof.
  destruct (lstrip_decomp s) as [w1 [E1 F1]].
  destruct (rstrip_decomp (lstrip s)) as [w2 [E2 F2]].
  transitivity (occurrences Context_marker (lstrip s)).
  - unfold strip.
    rewrite <- (occurrences_Context_spaces_r (rstrip (lstrip s)) w2 F2).
    now rewrite <- E2.
  - rewrite <- (occurrences_Context_spaces_l w1 (lstrip s) F1).
    now rewrite <- E1.
Qed.

(** The splitter on any output that holds the marker. *)
Lemma split_response_marker (raw : list N) :
  1 <= occurrences Context_marker raw ->
  exists before after,
    raw = before ++ Context_marker ++ after
    /\ find Context_marker raw = Some (length before)
    /\ split_response raw
       = Return (strip (replace Answer_label [] before), strip after)
    /\ occurrences Context_marker raw
       = 1 + occurrences Context_marker (strip after).
Proof.
  intros H. apply occurrences_pos_contains in H. unfold contains in H.
  destruct (find Context_marker raw) as [i|] eqn:F; [clear H | discriminate].
  destruct (find_Some_split _ _ _ F) as [E L].
  exists (take i raw), (drop (i + length Context_marker) raw).
  rewrite L. split; [exact E|]. split; [reflexivity|].
  assert (F' : find Context_marker (take i raw ++ Context_marker)
               = Some (length (take i raw))).
  { apply find_first_app_inv with (post := drop (i + length Context_marker) raw).
    rewrite <- E, L. exact F. }
  split.
  - rewrite E at 1. now apply split_response_first.
  - rewrite (find_occurrences _ _ _ F).
    rewrite E at 1. rewrite <- L at 1. rewrite drop_app_length.
    now rewrite occurrences_Context_skip, occurrences_Context_strip.
Qed.

(** The splitter raises nothing. *)
Lemma split_response_total (text : list N) :
  exists a c, split_response text = Return (a, c).
Proof.
  unfold split_response, contains, split1.
  destruct (find Context_marker (strip text)); simpl; eauto.
Qed.

End SplitterFacts.

(** ** The splitter: marker present once, absent, present several times *)

Example split_labelled :
  split_response (lit "  Answer: Feed hay. Context: It helps.  ")
  = Return (lit "Feed hay.", lit "It helps.").
Proof. reflexivity. Qed.

Example split_two_markers :
  split_response (lit "A Context: B Context: C")
  = Return (lit "A", lit "B Context: C").
Proof. reflexivity. Qed.

(** C1, as the specification states it, fails: on an output with one
    "Context:" marker and an "Answer:" that is not at the start, the splitter
    removes that inner "Answer:" as well, so its answer is not the text
    before the marker with only a leading "Answer:" taken off. *)
Lemma C1_counterexample :
  let before := lit "Feed hay. Answer: twice daily. " in
  let after := lit " It aids digestion." in
  let raw := before ++ Context_marker ++ after in
  raw = lit "Feed hay. Answer: twice daily. Context: It aids digestion."
  /\ occurrences Context_marker raw = 1
  /\ split_response raw
     = Return (lit "Feed hay.  twice daily.", lit "It aids digestion.")
  /\ answer_prefix_stripped before = lit "Feed hay. Answer: twice daily."
  /\ split_response raw <> Return (answer_prefix_stripped before, strip after).
Proof.
  cbv zeta. repeat split; try reflexivity.
  vm_compute. discriminate.
Qed.

(** C1 (amended): for every model output with exactly one occurrence of
    "Context:", the splitter returns as answer the text before the marker with
    every occurrence of "Answer:" removed and then whitespace-trimmed, and as
    context the whitespace-trimmed text after the marker. *)
Theorem C1_single_marker_split (raw : list N) :
  occurrences Context_marker raw = 1 ->
  (exists before after, raw = before ++ Context_marker ++ after)
  /\ forall before after,
       raw = before ++ Context_marker ++ after ->
       split_response raw
       = Return (strip (replace Answer_label [] before), strip after).
Proof.
  intros H. split.
  - apply contains_split, occurrences_pos_contains. lia.
  - intros before after ->.
    apply split_response_first.
    now apply occurrences_one_first with (post := after).
Qed.

Lemma C1_single_marker_split_witness :
  occurrences Context_marker (lit "Answer: Feed hay. Context: It helps.") = 1
  /\ split_response (lit "Answer: Feed hay. Context: It helps.")
     = Return (lit "Feed hay.", lit "It helps.").
Proof.
  split; [reflexivity|].
  destruct (C1_single_marker_split
              (lit "Answer: Feed hay. Context: It helps.") eq_refl) as [_ H].
  rewrite (H (lit "Answer: Feed hay. ") (lit " It helps.") eq_refl).
  reflexivity.
Defined.

(** C4: for every model output without the marker "Context:", the splitter
    returns the whole whitespace-trimmed output as answer and, as context, the
    fixed sentence "This advice is important for improving animal health and
    productivity in practical farming conditions.". *)
Theorem C4_no_marker_split (raw : list N) :
  contains (lit "Context:") raw = false ->
  split_response raw
  = Return (strip raw,
            lit "This advice is important for improving animal health and productivity in practical farming conditions.").
Proof.
  intros H. change (lit "Context:") with Context_marker in H.
  unfold split_response.
  now rewrite contains_Context_strip, H.
Qed.

Lemma C4_no_marker_split_witness :
  contains (lit "Context:") (lit "  Feed hay twice a day. ") = false
  /\ split_response (lit "  Feed hay twice a day. ")
     = Return (lit "Feed hay twice a day.",
               lit "This advice is important for improving animal health and productivity in practical farming conditions.").
Proof.
  split; [reflexivity|].
  rewrite (C4_no_marker_split (lit "  Feed hay twice a day. ") eq_refl).
  reflexivity.
Defined.

(** C5: for every model output with two or more occurrences of "Context:",
    the splitter splits at the first occurrence only: the answer comes from
    the text before the first marker, and the context is the whole trimmed
    remainder after it, in which all the later markers still stand. *)
Theorem C5_first_marker_split (raw : list N) :
  2 <= occurrences Context_marker raw ->
  exists before after,
    raw = before ++ Context_marker ++ after
    /\ find Context_marker raw = Some (length before)
    /\ split_response raw
       = Return (strip (replace Answer_label [] before), strip after)
    /\ occurrences Context_marker (strip after)
       = occurrences Context_marker raw - 1
    /\ contains Context_marker (strip after) = true.
Proof.
  intros H.
  destruct (split_response_marker raw) as (before & after & E & F & S & O);
    [lia|].
  exists before, after. repeat split; try assumption; [lia|].
  apply occurrences_pos_contains. lia.
Qed.

Lemma C5_first_marker_split_witness :
  2 <= occurrences Context_marker (lit "A Context: B Context: C")
  /\ exists before after,
       lit "A Context: B Context: C" = before ++ Context_marker ++ after
       /\ find Context_marker (lit "A Context: B Context: C") = Some (length before)
       /\ split_response (lit "A Context: B Context: C")
          = Return (strip (replace Answer_label [] before), strip after)
       /\ occurrences Context_marker (strip after)
          = occurrences Context_marker (lit "A Context: B Context: C") - 1
       /\ contains Context_marker (strip after) = true.
Proof.
  split; [vm_compute; lia|].
  apply (C5_first_marker_split (lit "A Context: B Context: C")).
  vm_compute. lia.
Defined.

(** ** The session dictionary and the prompt *)

Section Sessions.

Lemma get_history_append_eq (s : gmap (list N) (list Exchange)) (sid : list N)
    (item : Exchange) :
  get_history (append_exchange s sid item) sid = get_history s sid ++ [item].
Proof. unfold append_exchange, get_history at 1. now rewrite lookup_insert_eq. Qed.

Lemma get_history_append_ne (s : gmap (list N) (list Exchange)) (sid sid' : list N)
    (item : Exchange) :
  sid <> sid' ->
  get_history (append_exchange s sid item) sid' = get_history s sid'.
Proof.
  intros H. unfold append_exchange, get_history at 1.
  now rewrite lookup_insert_ne.
Qed.

Lemma get_history_append_extends (s : gmap (list N) (list Exchange))
    (sid sid' : list N) (item : Exchange) :
  exists ext, get_history (append_exchange s sid item) sid'
              = get_history s sid' ++ ext.
Proof.
  destruct (decide (sid = sid')) as [<-|Hne].
  - exists [item]. apply get_history_append_eq.
  - exists []. rewrite app_nil_r. now apply get_history_append_ne.
Qed.

(** A request never shortens a transcript. *)
Lemma handler_history_extends (generate : list N -> list N -> result (list N))
    (req : FarmerQuery) (s s' : gmap (list N) (list Exchange))
    (r : result FarmerResponse) (sid : list N) :
  farmer_husbandry_assistant generate req s = (r, s') ->
  exists ext, get_history s' sid = get_history s sid ++ ext.
Proof.
  unfold farmer_husbandry_assistant.
  destruct (attempt generate _) as [[a c]|e]; intros [= <- <-].
  - apply get_history_append_extends.
  - exists []. now rewrite app_nil_r.
Qed.

Lemma later_history_extends (s s' : gmap (list N) (list Exchange)) (sid : list N) :
  later s s' -> exists ext, get_history s' sid = get_history s sid ++ ext.
Proof.
  induction 1 as [s | s generate req r s1 s2 Hstep _ [ext2 IH]].
  - exists []. now rewrite app_nil_r.
  - destruct (handler_history_extends _ _ _ _ _ sid Hstep) as [ext1 E1].
    exists (ext1 ++ ext2). now rewrite IH, E1, app_assoc.
Qed.

Lemma build_prompt_eq (q : list N) (history : list Exchange) :
  build_prompt q history
  = template_head ++ strip q ++ nl ++ nl
    ++ previous_context_text history ++ template_tail.
Proof.
  unfold build_prompt, format, HUSBANDRY_PROMPT_TEMPLATE. cbn [flat_map].
  now rewrite app_nil_r, <- !app_assoc.
Qed.

Lemma join_lookup (sep : list N) (parts : list (list N)) (i : nat) (p : list N) :
  parts !! i = Some p -> exists a b, join sep parts = a ++ p ++ b.
Proof.
  revert i. induction parts as [|x parts IH]; intros i H; [discriminate|].
  destruct i as [|i].
  - injection H as ->. destruct parts as [|y parts].
    + exists [], []. simpl. now rewrite app_nil_r.
    + exists [], (sep ++ join sep (y :: parts)). reflexivity.
  - simpl in H. destruct (IH _ H) as (a & b & E).
    destruct parts as [|y parts]; [discriminate|].
    exists (x ++ sep ++ a), b.
    change (join sep (x :: y :: parts)) with (x ++ sep ++ join sep (y :: parts)).
    rewrite E. now rewrite <- !app_assoc.
Qed.

(** Every stored exchange is rendered in the prompt. *)
Lemma build_prompt_includes (q : list N) (history : list Exchange) (i : nat)
    (item : Exchange) :
  history !! i = Some item ->
  exists a b, build_prompt q history = a ++ render_item item ++ b.
Proof.
  intros H. rewrite build_prompt_eq.
  destruct history as [|h0 history]; [discriminate|].
  unfold previous_context_text.
  destruct (join_lookup nl (List.map render_item (h0 :: history)) i (render_item item))
    as (a & b & E).
  { change (List.map render_item (h0 :: history)) with (render_item <$> (h0 :: history)).
    now rewrite list_lookup_fmap, H. }
  rewrite E.
  exists (template_head ++ strip q ++ nl ++ nl ++ previous_conversation_header ++ a),
         (b ++ template_tail).
  now rewrite <- !app_assoc.
Qed.

(** What [attempt] can come to. *)
Lemma attempt_cases (generate : list N -> list N -> result (list N)) (prompt : list N) :
  match generate model_name prompt with
  | Return text => attempt generate prompt = split_response text
  | Raise e =>
      attempt generate prompt
      = if is_GoogleAPIError e then Return (fallback_answer, fallback_context)
        else Raise e
  end.
Proof.
  unfold attempt. destruct (generate model_name prompt) as [text|e]; [|reflexivity].
  cbn [mbind result_bind].
  destruct (split_response_total text) as (a & c & ->). reflexivity.
Qed.

End Sessions.

Section Trimming.

Lemma lstrip_head (s : list N) (c : N) (t : list N) :
  lstrip s = c :: t -> isspace c = false.
Proof.
  induction s as [|a s IH]; simpl; [discriminate|].
  destruct (isspace a) eqn:Ha; [exact IH|].
  intros [= <- _]. exact Ha.
Qed.

(** A query with whitespace at either end is changed by [strip]. *)
Lemma strip_changes (q : list N) :
  has_outer_whitespace q = true -> strip q <> q.
Proof.
  unfold has_outer_whitespace. intros H E.
  apply orb_true_iff in H as [H|H].
  - destruct q as [|c t]; [discriminate|].
    unfold strip in E. rewrite <- lstrip_rstrip in E.
    apply lstrip_head in E. congruence.
  - destruct (rev q) as [|c t] eqn:R; [discriminate|].
    assert (E' : lstrip (rev (lstrip q)) = c :: t).
    { transitivity (rev (strip q)).
      - unfold strip, rstrip. now rewrite rev_involutive.
      - now rewrite E. }
    apply lstrip_head in E'. congruence.
Qed.

End Trimming.

(** ** The handler *)

Example handler_fresh_session :
  let generate : list N -> list N -> result (list N) :=
    fun _ _ => Return (lit "Answer: yes Context: because") in
  let req := {| query := lit " q "; session_id := lit "s1" |} in
  farmer_husbandry_assistant generate req ∅
  = (Return {| answer := lit "yes"; context := lit "because"; note := default_note |},
     {[ lit "s1" := [{| item_query := lit " q "; item_answer := lit "yes" |}] ]}).
Proof. reflexivity. Qed.

(** The provider is asked the prompt built from the query and the stored
    transcript, under the fixed model identifier. *)
Lemma handler_prompt (generate : list N -> list N -> result (list N))
    (req : FarmerQuery) (s : gmap (list N) (list Exchange)) :
  farmer_husbandry_assistant generate req s
  = farmer_husbandry_assistant
      (fun _ _ => generate model_name
                    (build_prompt (query req) (get_history s (session_id req))))
      req s.
Proof. reflexivity. Qed.

(** A request that returns has appended its exchange. *)
Lemma handler_return (generate : list N -> list N -> result (list N))
    (req : FarmerQuery) (s s' : gmap (list N) (list Exchange))
    (resp : FarmerResponse) :
  farmer_husbandry_assistant generate req s = (Return resp, s') ->
  note resp = default_note
  /\ s' = append_exchange s (session_id req)
            {| item_query := query req; item_answer := answer resp |}.
Proof.
  unfold farmer_husbandry_assistant.
  destruct (attempt generate _) as [[a c]|e]; intros [= <- <-].
  split; reflexivity.
Qed.

(** C2, as the specification states it, fails: an error that the provider's
    client library raises outside the GoogleAPIError hierarchy, here the
    ValueError of a blocked response, leaves the handler as an exception. *)
Lemma C2_counterexample :
  let generate : list N -> list N -> result (list N) :=
    fun _ _ => Raise (ValueError (lit "response blocked")) in
  let req := {| query := lit "How much water does a goat need?";
                session_id := default_session_id |} in
  farmer_husbandry_assistant generate req ∅
  = (Raise (ValueError (lit "response blocked")), ∅)
  /\ forall resp s', farmer_husbandry_assistant generate req ∅ <> (Return resp, s').
Proof.
  cbv zeta. split; [reflexivity|].
  intros resp s' H. discriminate H.
Qed.

(** C2 (amended): for every request during which the provider call fails with
    a GoogleAPIError, the handler returns a normal response whose answer is
    "Sorry, I am unable to answer your query right now." and whose context is
    "Try again later or consult a nearby veterinary expert."; that failure is
    not propagated. *)
Theorem C2_provider_error_fallback (generate : list N -> list N -> result (list N))
    (req : FarmerQuery) (s : gmap (list N) (list Exchange)) (e : exn) :
  generate model_name (build_prompt (query req) (get_history s (session_id req)))
  = Raise e ->
  is_GoogleAPIError e = true ->
  exists s',
    farmer_husbandry_assistant generate req s
    = (Return {| answer := fallback_answer; context := fallback_context;
                 note := default_note |}, s')
    /\ fallback_answer = lit "Sorry, I am unable to answer your query right now."
    /\ fallback_context = lit "Try again later or consult a nearby veterinary expert.".
Proof.
  intros G He. unfold farmer_husbandry_assistant.
  pose proof (attempt_cases generate
                (build_prompt (query req) (get_history s (session_id req)))) as A.
  rewrite G, He in A. rewrite A.
  eexists. repeat split; reflexivity.
Qed.

Lemma C2_provider_error_fallback_witness :
  let generate : list N -> list N -> result (list N) :=
    fun _ _ => Raise (GoogleAPIError (lit "503 unavailable")) in
  let req := {| query := lit "How much water does a goat need?";
                session_id := default_session_id |} in
  exists s',
    farmer_husbandry_assistant generate req ∅
    = (Return {| answer := fallback_answer; context := fallback_context;
                 note := default_note |}, s')
    /\ fallback_answer = lit "Sorry, I am unable to answer your query right now."
    /\ fallback_context = lit "Try again later or consult a nearby veterinary expert.".
Proof.
  cbv zeta.
  apply (C2_provider_error_fallback
           (fun _ _ => Raise (GoogleAPIError (lit "503 unavailable")))
           {| query := lit "How much water does a goat need?";
              session_id := default_session_id |}
           ∅ (GoogleAPIError (lit "503 unavailable")));
    reflexivity.
Defined.

(** The transcript block, one rendered exchange after the other. *)
Lemma join_render_items (h0 : Exchange) (history : list Exchange) :
  nl ++ join nl (List.map render_item (h0 :: history))
  = flat_map (fun item => [10%N] ++ lit "Farmer: " ++ item_query item
                          ++ [10%N] ++ lit "AI: " ++ item_answer item)
      (h0 :: history).
Proof.
  revert h0. induction history as [|h1 history IH]; intros h0.
  - cbn [List.map join flat_map]. unfold render_item.
    change ai_line with ([10%N] ++ lit "AI: "). change nl with [10%N].
    now rewrite app_nil_r, <- !app_assoc.
  - change (List.map render_item (h0 :: h1 :: history))
      with (render_item h0 :: List.map render_item (h1 :: history)).
    change (join nl (render_item h0 :: List.map render_item (h1 :: history)))
      with (render_item h0 ++ nl ++ join nl (List.map render_item (h1 :: history))).
    rewrite IH. cbn [flat_map]. unfold render_item.
    change ai_line with ([10%N] ++ lit "AI: "). change nl with [10%N].
    now rewrite <- !app_assoc.
Qed.

(** C3, as the specification states it, fails, because the query and the
    stored text go into the prompt as they are.  A first request of a session
    whose query carries the header has a prompt with a "Previous
    conversation" block although nothing is stored; and a session that holds
    one exchange, stored by a request whose query has line breaks, has the
    very prompt of a session that holds two exchanges, with two "Farmer:"
    and two "AI:" lines. *)
Lemma C3_counterexample :
  let sid := lit "s1" in
  let forged := lit "Previous conversation:" ++ [10%N] ++ lit "Farmer: x"
                ++ [10%N] ++ lit "AI: y" in
  let fresh : gmap (list N) (list Exchange) := ∅ in
  let generate : list N -> list N -> result (list N) := fun _ _ => Return (lit "d") in
  let first := {| query := lit "a" ++ [10%N] ++ lit "AI: b" ++ [10%N] ++ lit "Farmer: c";
                  session_id := sid |} in
  let s := snd (farmer_husbandry_assistant generate first ∅) in
  let prompt := build_prompt (lit "q") (get_history s sid) in
  (fresh !! sid = None
   /\ contains forged (build_prompt forged (get_history fresh sid)) = true)
  /\ (s !! sid = Some [{| item_query := query first; item_answer := lit "d" |}]
      /\ prompt
         = build_prompt (lit "q")
             [{| item_query := lit "a"; item_answer := lit "b" |};
              {| item_query := lit "c"; item_answer := lit "d" |}]
      /\ occurrences ([10%N] ++ lit "Farmer: ") prompt = 2
      /\ occurrences ([10%N] ++ lit "AI: ") prompt = 2).
Proof.
  cbv zeta. repeat split; vm_compute; reflexivity.
Qed.

(** C3 (amended): the prompt that the handler builds and sends to the model
    is the template with the trimmed query and the previous-context field.
    For a session_id with no stored exchanges (absent, or an empty list) that
    field is empty: the query is followed directly by the closing
    instructions.  For a session_id whose stored transcript holds N exchanges
    the field is "Previous conversation:" followed by exactly N renderings
    of the form line break, "Farmer: " query, line break, "AI: " answer, one
    per stored exchange, in insertion order; the stored text is put in as it
    is. *)
Theorem C3_prompt_history_block
    (generate : list N -> list N -> result (list N)) (req : FarmerQuery)
    (s : gmap (list N) (list Exchange)) (history : list Exchange) :
  default [] (s !! session_id req) = history ->
  let block :=
    match history with
    | [] => []
    | _ :: _ =>
        lit "Previous conversation:"
        ++ flat_map (fun item => [10%N] ++ lit "Farmer: " ++ item_query item
                                 ++ [10%N] ++ lit "AI: " ++ item_answer item)
             history
    end in
  let prompt :=
    template_head ++ strip (query req) ++ [10%N; 10%N] ++ block ++ template_tail in
  build_prompt (query req) (get_history s (session_id req)) = prompt
  /\ farmer_husbandry_assistant generate req s
     = farmer_husbandry_assistant (fun model _ => generate model prompt) req s.
Proof.
  intros H. cbv zeta.
  assert (P : build_prompt (query req) (get_history s (session_id req))
              = template_head ++ strip (query req) ++ [10%N; 10%N]
                ++ match history with
                   | [] => []
                   | _ :: _ =>
                       lit "Previous conversation:"
                       ++ flat_map (fun item => [10%N] ++ lit "Farmer: "
                                                ++ item_query item ++ [10%N]
                                                ++ lit "AI: " ++ item_answer item)
                            history
                   end ++ template_tail).
  { rewrite build_prompt_eq. unfold get_history. rewrite H.
    destruct history as [|h0 history]; [reflexivity|].
    unfold previous_context_text.
    change previous_conversation_header with (lit "Previous conversation:" ++ nl).
    rewrite <- (app_assoc (lit "Previous conversation:") nl).
    rewrite join_render_items.
    change (nl ++ nl ++ ?x) with ([10%N; 10%N] ++ x). reflexivity. }
  split; [exact P|].
  unfold farmer_husbandry_assistant, attempt. now rewrite P.
Qed.

Lemma C3_prompt_history_block_witness :
  let s : gmap (list N) (list Exchange) :=
    {[ lit "s1" := [{| item_query := lit "q1"; item_answer := lit "a1" |};
                    {| item_query := lit " q2"; item_answer := lit "a2" |}] ]} in
  let req := {| query := lit " how? "; session_id := lit "s1" |} in
  let echo : list N -> list N -> result (list N) := fun _ p => Return p in
  let prompt :=
    template_head ++ lit "how?" ++ [10%N; 10%N]
    ++ lit "Previous conversation:"
    ++ [10%N] ++ lit "Farmer: q1" ++ [10%N] ++ lit "AI: a1"
    ++ [10%N] ++ lit "Farmer:  q2" ++ [10%N] ++ lit "AI: a2"
    ++ template_tail in
  build_prompt (query req) (get_history s (session_id req)) = prompt
  /\ farmer_husbandry_assistant echo req s
     = farmer_husbandry_assistant (fun model _ => echo model prompt) req s.
Proof.
  cbv zeta.
  exact (C3_prompt_history_block
           (fun _ p => Return p)
           {| query := lit " how? "; session_id := lit "s1" |}
           {[ lit "s1" := [{| item_query := lit "q1"; item_answer := lit "a1" |};
                           {| item_query := lit " q2"; item_answer := lit "a2" |}] ]}
           [{| item_query := lit "q1"; item_answer := lit "a1" |};
            {| item_query := lit " q2"; item_answer := lit "a2" |}]
           eq_refl).
Defined.

(** An exchange once stored is rendered in every later prompt of its
    session. *)
Lemma later_prompt_includes (s1 s2 : gmap (list N) (list Exchange))
    (sid : list N) (item : Exchange) (i : nat) (q : list N) :
  get_history s1 sid !! i = Some item ->
  later s1 s2 ->
  exists a b, build_prompt q (get_history s2 sid) = a ++ render_item item ++ b.
Proof.
  intros H L. destruct (later_history_extends _ _ sid L) as [ext E].
  apply build_prompt_includes with (i := i).
  rewrite E. now apply lookup_app_l_Some.
Qed.



(** C7: every request that the handler runs to completion appends exactly one
    Exchange, the request's query with the returned answer, to the transcript
    of its session_id, creating the session if it was absent, and leaves the
    other sessions as they were; this holds too when the provider fails with
    a GoogleAPIError, where the fallback answer is recorded.  Nothing else
    stops the handler: it fails to complete only when the provider raises an
    exception outside that hierarchy. *)
Theorem C7_completed_request_appends_one
    (generate : list N -> list N -> result (list N)) (req : FarmerQuery)
    (s : gmap (list N) (list Exchange)) :
  let sid := session_id req in
  let outcome := generate model_name (build_prompt (query req) (get_history s sid)) in
  match farmer_husbandry_assistant generate req s with
  | (Return resp, s') =>
      let item := {| item_query := query req; item_answer := answer resp |} in
      s' = <[sid := default [] (s !! sid) ++ [item]]> s
      /\ s' !! sid = Some (get_history s sid ++ [item])
      /\ (forall sid', sid' <> sid -> s' !! sid' = s !! sid')
      /\ match outcome with
         | Return _ => True
         | Raise e => is_GoogleAPIError e = true /\ answer resp = fallback_answer
         end
  | (Raise e, s') =>
      outcome = Raise e /\ is_GoogleAPIError e = false
  end.
Proof.
  cbv zeta. unfold farmer_husbandry_assistant.
  pose proof (attempt_cases generate
                (build_prompt (query req) (get_history s (session_id req)))) as A.
  destruct (generate model_name _) as [text|e].
  - destruct (split_response_total text) as (a & c & E). rewrite E in A.
    rewrite A. cbn [answer]. repeat split.
    + unfold append_exchange. now rewrite lookup_insert_eq.
    + intros sid' Hne. unfold append_exchange. now rewrite lookup_insert_ne.
  - destruct (is_GoogleAPIError e) eqn:He; rewrite A.
    + cbn [answer]. repeat split.
      * unfold append_exchange. now rewrite lookup_insert_eq.
      * intros sid' Hne. unfold append_exchange. now rewrite lookup_insert_ne.
    + split; [reflexivity | exact He].
Qed.

(** C8: for every pair of requests that return, whatever their query,
    session_id or the model's output, the "note" field of the two responses
    is the same fixed string "This is AI-generated information. Please
    consult a veterinary expert for critical issues.". *)
Theorem C8_note_fixed
    (generate1 generate2 : list N -> list N -> result (list N))
    (req1 req2 : FarmerQuery) (s1 s2 s1' s2' : gmap (list N) (list Exchange))
    (resp1 resp2 : FarmerResponse) :
  farmer_husbandry_assistant generate1 req1 s1 = (Return resp1, s1') ->
  farmer_husbandry_assistant generate2 req2 s2 = (Return resp2, s2') ->
  note resp1 = note resp2
  /\ note resp1
     = lit "This is AI-generated information. Please consult a veterinary expert for critical issues.".
Proof.
  intros H1 H2.
  apply handler_return in H1 as [-> _]. apply handler_return in H2 as [-> _].
  split; reflexivity.
Qed.

Lemma C8_note_fixed_witness :
  let g1 : list N -> list N -> result (list N) :=
    fun _ _ => Return (lit "Answer: yes Context: because") in
  let g2 : list N -> list N -> result (list N) :=
    fun _ _ => Raise (GoogleAPIError (lit "quota")) in
  let r1 := {| query := lit "q1"; session_id := lit "s1" |} in
  let r2 := {| query := lit " another "; session_id := lit "s2" |} in
  let resp1 := {| answer := lit "yes"; context := lit "because"; note := default_note |} in
  let resp2 := {| answer := fallback_answer; context := fallback_context;
                  note := default_note |} in
  note resp1 = note resp2
  /\ note resp1
     = lit "This is AI-generated information. Please consult a veterinary expert for critical issues.".
Proof.
  cbv zeta.
  eapply (C8_note_fixed
           (fun _ _ => Return (lit "Answer: yes Context: because"))
           (fun _ _ => Raise (GoogleAPIError (lit "quota")))
           {| query := lit "q1"; session_id := lit "s1" |}
           {| query := lit " another "; session_id := lit "s2" |}
           ∅ ∅ _ _
           {| answer := lit "yes"; context := lit "because"; note := default_note |}
           {| answer := fallback_answer; context := fallback_context;
              note := default_note |});
    reflexivity.
Defined.

(** C9: if the model invocation or the access to the response text raises an
    exception that is not a GoogleAPIError, the handler propagates that
    exception and the session dictionary is left as it was: no Exchange is
    appended. *)
Theorem C9_foreign_exception_propagates
    (generate : list N -> list N -> result (list N)) (req : FarmerQuery)
    (s : gmap (list N) (list Exchange)) (e : exn) :
  generate model_name (build_prompt (query req) (get_history s (session_id req)))
  = Raise e ->
  is_GoogleAPIError e = false ->
  farmer_husbandry_assistant generate req s = (Raise e, s).
Proof.
  intros G He. unfold farmer_husbandry_assistant.
  pose proof (attempt_cases generate
                (build_prompt (query req) (get_history s (session_id req)))) as A.
  rewrite G, He in A. now rewrite A.
Qed.

Lemma C9_foreign_exception_propagates_witness :
  let generate : list N -> list N -> result (list N) :=
    fun _ _ => Raise (ValueError (lit "response blocked")) in
  let req := {| query := lit "q2"; session_id := lit "s1" |} in
  let s : gmap (list N) (list Exchange) :=
    {[ lit "s1" := [{| item_query := lit "q1"; item_answer := lit "a1" |}] ]} in
  farmer_husbandry_assistant generate req s
  = (Raise (ValueError (lit "response blocked")), s).
Proof.
  cbv zeta.
  apply (C9_foreign_exception_propagates
           (fun _ _ => Raise (ValueError (lit "response blocked")))
           {| query := lit "q2"; session_id := lit "s1" |}
           {[ lit "s1" := [{| item_query := lit "q1"; item_answer := lit "a1" |}] ]}
           (ValueError (lit "response blocked")));
    reflexivity.
Defined.



(** ** Further properties of the string operations and the splitter *)

Lemma strip_idem (s : list N) : strip (strip s) = strip s.
Proof. unfold strip at 2. now rewrite strip_rstrip, strip_lstrip. Qed.

Lemma strip_no_outer_whitespace (q : list N) :
  has_outer_whitespace q = false -> strip q = q.
Proof.
  unfold has_outer_whitespace. intros H.
  apply orb_false_iff in H as [H1 H2].
  destruct q as [|c t]; [reflexivity|].
  unfold strip. rewrite lstrip_nonspace by exact H1.
  unfold rstrip. destruct (rev (c :: t)) as [|c' t'] eqn:R.
  - apply (f_equal (@rev N)) in R. rewrite rev_involutive in R. exact (eq_sym R).
  - rewrite lstrip_nonspace by exact H2.
    rewrite <- R. apply rev_involutive.
Qed.

(** X1: [strip] leaves a string as it is exactly when the string neither
    starts nor ends with a whitespace character. *)
Theorem X1_strip_fixed_iff (q : list N) :
  strip q = q <-> has_outer_whitespace q = false.
Proof.
  split.
  - intros E. destruct (has_outer_whitespace q) eqn:W; [|reflexivity].
    destruct (strip_changes q W E).
  - apply strip_no_outer_whitespace.
Qed.

Lemma split_response_trimmed (text a c : list N) :
  split_response text = Return (a, c) -> strip a = a /\ strip c = c.
Proof.
  unfold split_response, contains, split1.
  destruct (find Context_marker (strip text)); simpl; intros [= <- <-].
  - split; apply strip_idem.
  - split; [apply strip_idem | reflexivity].
Qed.

Lemma handler_return_attempt (generate : list N -> list N -> result (list N))
    (req : FarmerQuery) (s s' : gmap (list N) (list Exchange))
    (resp : FarmerResponse) :
  farmer_husbandry_assistant generate req s = (Return resp, s') ->
  attempt generate (build_prompt (query req) (get_history s (session_id req)))
  = Return (answer resp, context resp).
Proof.
  unfold farmer_husbandry_assistant.
  destruct (attempt generate _) as [[a c]|e]; intros [= <- <-].
  reflexivity.
Qed.

Lemma attempt_trimmed (generate : list N -> list N -> result (list N))
    (prompt a c : list N) :
  attempt generate prompt = Return (a, c) -> strip a = a /\ strip c = c.
Proof.
  pose proof (attempt_cases generate prompt) as A.
  destruct (generate model_name prompt) as [text|e].
  - rewrite A. apply split_response_trimmed.
  - rewrite A. destruct (is_GoogleAPIError e); [|discriminate].
    intros [= <- <-]. split; reflexivity.
Qed.

(** X2: the answer and the context of every response the handler returns
    are whitespace-trimmed, whether they come from the model's text or from
    the fallback. *)
Theorem X2_response_fields_trimmed
    (generate : list N -> list N -> result (list N)) (req : FarmerQuery)
    (s s' : gmap (list N) (list Exchange)) (resp : FarmerResponse) :
  farmer_husbandry_assistant generate req s = (Return resp, s') ->
  strip (answer resp) = answer resp /\ strip (context resp) = context resp.
Proof.
  intros H. apply handler_return_attempt in H.
  now apply attempt_trimmed in H.
Qed.

Lemma X2_response_fields_trimmed_witness :
  let resp := {| answer := lit "yes"; context := lit "because"; note := default_note |} in
  strip (answer resp) = answer resp /\ strip (context resp) = context resp.
Proof.
  cbv zeta.
  eapply (X2_response_fields_trimmed
            (fun _ _ => Return (lit "  Answer: yes   Context:  because  "))
            {| query := lit "q1"; session_id := lit "s1" |} ∅).
  reflexivity.
Defined.

Lemma contains_cons_false (m : list N) (c : N) (s : list N) :
  contains m (c :: s) = false ->
  startswith m (c :: s) = false /\ contains m s = false.
Proof.
  unfold contains.
  change (find m (c :: s))
    with (if startswith m (c :: s) then Some 0 else option_map S (find m s)).
  destruct (startswith m (c :: s)); [discriminate|].
  destruct (find m s); [discriminate | split; reflexivity].
Qed.

(** [replace] leaves a string without the old text as it is. *)
Lemma replace_absent (o : N) (old new s : list N) :
  contains (o :: old) s = false -> replace (o :: old) new s = s.
Proof.
  unfold replace. induction s as [|c s IH]; intros H; [reflexivity|].
  apply contains_cons_false in H as [Hs Hc].
  change (replace_from (o :: old) new 0 (c :: s))
    with (if startswith (o :: old) (c :: s)
          then new ++ replace_from (o :: old) new (length (o :: old) - 1) s
          else c :: replace_from (o :: old) new 0 s).
  rewrite Hs. f_equal. now apply IH.
Qed.

Lemma replace_Answer_prefix (a : list N) :
  replace Answer_label [] (Answer_label ++ a) = replace Answer_label [] a.
Proof. reflexivity. Qed.

(** The splitter in the terms of the code: the cut is where [find] puts
    it. *)
Lemma split_response_find (raw : list N) (i : nat) :
  find Context_marker raw = Some i ->
  split_response raw
  = Return (strip (replace Answer_label [] (take i raw)),
            strip (drop (i + length Context_marker) raw)).
Proof.
  intros F. destruct (find_Some_split _ _ _ F) as [E L].
  rewrite E at 1. apply split_response_first.
  apply find_first_app_inv with (post := drop (i + length Context_marker) raw).
  rewrite <- E, L. exact F.
Qed.

(** X3: an output in the two-part form that the prompt asks for, "Answer:"
    a "Context:" c, with one "Context:" in all and no further "Answer:" in a,
    is split into a and c, both trimmed. *)
Theorem X3_labelled_output_round_trip (a c : list N) :
  occurrences Context_marker (Answer_label ++ a ++ Context_marker ++ c) = 1 ->
  contains Answer_label a = false ->
  split_response (Answer_label ++ a ++ Context_marker ++ c)
  = Return (strip a, strip c).
Proof.
  intros O A.
  rewrite app_assoc in O |- *.
  rewrite split_response_first.
  - rewrite replace_Answer_prefix.
    unfold Answer_label in A |- *. now rewrite replace_absent.
  - now apply occurrences_one_first with (post := c).
Qed.

Lemma X3_labelled_output_round_trip_witness :
  split_response (Answer_label ++ lit " Feed hay. " ++ Context_marker ++ lit " It helps.")
  = Return (lit "Feed hay.", lit "It helps.").
Proof.
  rewrite (X3_labelled_output_round_trip (lit " Feed hay. ") (lit " It helps.")
             eq_refl eq_refl).
  reflexivity.
Defined.

(** X4: when the text before the first "Context:" holds no "Answer:", the
    answer is that text, trimmed, and nothing else is taken from it. *)
Theorem X4_unlabelled_answer_kept (raw : list N) (i : nat) :
  find Context_marker raw = Some i ->
  contains Answer_label (take i raw) = false ->
  split_response raw
  = Return (strip (take i raw), strip (drop (i + 8) raw)).
Proof.
  intros F A. rewrite (split_response_find raw i F).
  unfold Answer_label in A |- *. now rewrite replace_absent.
Qed.

Lemma X4_unlabelled_answer_kept_witness :
  split_response (lit "Feed hay. Context: It helps.")
  = Return (lit "Feed hay.", lit "It helps.").
Proof.
  rewrite (X4_unlabelled_answer_kept (lit "Feed hay. Context: It helps.") 10
             eq_refl eq_refl).
  reflexivity.
Defined.

(** X5: for a separator that is not empty, [split(sep, 1)] loses nothing
    but the separator: joining its parts with the separator gives the string
    back, whether the separator was found or not. *)
Theorem X5_split1_join_round_trip (sep s : list N) :
  sep <> [] ->
  join sep (split1 sep s) = s.
Proof.
  intros _. unfold split1. destruct (find sep s) as [i|] eqn:F; [|reflexivity].
  destruct (find_Some_split _ _ _ F) as [E _].
  simpl. now rewrite <- E.
Qed.

Lemma X5_split1_join_round_trip_witness :
  join (lit "Context:") (split1 (lit "Context:") (lit "A Context: B Context: C"))
  = lit "A Context: B Context: C".
Proof.
  apply (X5_split1_join_round_trip (lit "Context:") (lit "A Context: B Context: C")).
  discriminate.
Defined.

Lemma find_app_bound (m a b : list N) :
  exists k, find m (a ++ m ++ b) = Some k /\ k <= length a.
Proof.
  induction a as [|c a (k & F & L)].
  - exists 0. split; [|reflexivity]. simpl app. apply find_hit, startswith_self.
  - simpl app.
    change (find m (c :: a ++ m ++ b))
      with (if startswith m (c :: a ++ m ++ b) then Some 0
            else option_map S (find m (a ++ m ++ b))).
    destruct (startswith m (c :: a ++ m ++ b)).
    + exists 0. split; [reflexivity | simpl; lia].
    + exists (S k). rewrite F. split; [reflexivity | simpl; lia].
Qed.

(** X6: the part that [split("Context:", 1)] puts before the cut holds no
    "Context:" itself. *)
Theorem X6_before_first_marker_free (s : list N) (i : nat) :
  find Context_marker s = Some i ->
  split1 Context_marker s = [take i s; drop (i + 8) s]
  /\ contains Context_marker (take i s) = false.
Proof.
  intros F. split; [unfold split1; now rewrite F|].
  destruct (contains Context_marker (take i s)) eqn:C; [|reflexivity].
  apply contains_split in C as (a & b & E).
  destruct (find_Some_split _ _ _ F) as [_ L].
  destruct (find_app_bound Context_marker a (b ++ drop i s)) as (k & Fk & Hk).
  assert (Es : s = a ++ Context_marker ++ b ++ drop i s).
  { rewrite <- (take_drop i s) at 1. rewrite E. now rewrite <- !app_assoc. }
  rewrite <- Es, F in Fk. injection Fk as <-.
  rewrite E in L. rewrite !length_app in L. simpl in L. lia.
Qed.

Lemma X6_before_first_marker_free_witness :
  split1 Context_marker (lit "A Context: B Context: C")
  = [lit "A "; lit " B Context: C"]
  /\ contains Context_marker (lit "A ") = false.
Proof.
  exact (X6_before_first_marker_free (lit "A Context: B Context: C") 2 eq_refl).
Defined.

(** ** Further properties of the session dictionary and the handler *)

(** What a request does to the dictionary: nothing, or one append. *)
Lemma handler_step_cases (generate : list N -> list N -> result (list N))
    (req : FarmerQuery) (s s' : gmap (list N) (list Exchange))
    (r : result FarmerResponse) :
  farmer_husbandry_assistant generate req s = (r, s') ->
  s' = s
  \/ exists a c,
       attempt generate (build_prompt (query req) (get_history s (session_id req)))
       = Return (a, c)
       /\ s' = append_exchange s (session_id req)
                 {| item_query := query req; item_answer := a |}.
Proof.
  unfold farmer_husbandry_assistant.
  destruct (attempt generate _) as [[a c]|e]; intros [= <- <-].
  - right. eauto.
  - now left.
Qed.

(** A property of dictionaries kept by every request is kept by every run of
    requests. *)
Lemma later_invariant (P : gmap (list N) (list Exchange) -> Prop) :
  (forall generate req s r s',
      P s -> farmer_husbandry_assistant generate req s = (r, s') -> P s') ->
  forall s s', later s s' -> P s -> P s'.
Proof.
  intros Step s s' L. induction L as [s | s generate req r s1 s2 H _ IH]; [auto|].
  intros Ps. apply IH. exact (Step _ _ _ _ _ Ps H).
Qed.

Lemma lookup_append_exchange (s : gmap (list N) (list Exchange))
    (sid sid' : list N) (item : Exchange) (l : list Exchange) :
  append_exchange s sid item !! sid' = Some l ->
  (sid' = sid /\ l = get_history s sid ++ [item])
  \/ (sid' <> sid /\ s !! sid' = Some l).
Proof.
  unfold append_exchange. destruct (decide (sid = sid')) as [<-|Hne].
  - rewrite lookup_insert_eq. intros [= <-]. now left.
  - rewrite lookup_insert_ne by exact Hne. intros H. right. split; [congruence | exact H].
Qed.

(** X7: in every dictionary that requests lead to from the empty one, a
    session that is present has at least one exchange: no key maps to an
    empty list. *)
Theorem X7_no_empty_transcript (s : gmap (list N) (list Exchange))
    (sid : list N) (l : list Exchange) :
  later ∅ s -> s !! sid = Some l -> l <> [].
Proof.
  intros L. revert sid l.
  apply (later_invariant
           (fun m => forall sid l, m !! sid = Some l -> l <> []) ) with (s := ∅);
    [|exact L|].
  - intros generate req m r m' Pm H sid l Hl.
    apply handler_step_cases in H as [->|(a & c & _ & ->)]; [now apply (Pm sid)|].
    apply lookup_append_exchange in Hl as [[_ ->]|[_ Hl]].
    + intros E. apply app_eq_nil in E as [_ E]. discriminate.
    + now apply (Pm sid).
  - intros sid l H. rewrite lookup_empty in H. discriminate.
Qed.

Lemma X7_no_empty_transcript_witness :
  [{| item_query := lit "q1"; item_answer := lit "yes" |}] <> [].
Proof.
  apply (X7_no_empty_transcript
           (snd (farmer_husbandry_assistant
                   (fun _ _ => Return (lit "Answer: yes Context: because"))
                   {| query := lit "q1"; session_id := lit "s1" |} ∅))
           (lit "s1")).
  - eapply (later_step ∅
              (fun _ _ => Return (lit "Answer: yes Context: because"))
              {| query := lit "q1"; session_id := lit "s1" |});
      [|apply later_refl]; reflexivity.
  - reflexivity.
Defined.

(** X8: over any run of requests a transcript only grows at its end: the
    exchanges stored before stay, in their order, as a prefix of the later
    transcript, and a session that is present stays present. *)
Theorem X8_transcripts_only_grow (s s' : gmap (list N) (list Exchange))
    (sid : list N) :
  later s s' ->
  (exists ext, get_history s' sid = get_history s sid ++ ext)
  /\ (is_Some (s !! sid) -> is_Some (s' !! sid)).
Proof.
  intros L. split; [now apply later_history_extends|].
  apply (later_invariant (fun m => is_Some (m !! sid))) with (s := s); [|exact L].
  intros generate req m r m' Pm H.
  apply handler_step_cases in H as [->|(a & c & _ & ->)]; [exact Pm|].
  unfold append_exchange. destruct (decide (session_id req = sid)) as [<-|Hne].
  - rewrite lookup_insert_eq. eauto.
  - now rewrite lookup_insert_ne.
Qed.

Lemma X8_transcripts_only_grow_witness :
  let g : list N -> list N -> result (list N) :=
    fun _ _ => Return (lit "Answer: yes Context: because") in
  let s : gmap (list N) (list Exchange) :=
    {[ lit "s1" := [{| item_query := lit "q0"; item_answer := lit "a0" |}] ]} in
  let s' := snd (farmer_husbandry_assistant g
                   {| query := lit "q1"; session_id := lit "s1" |} s) in
  (exists ext, get_history s' (lit "s1") = get_history s (lit "s1") ++ ext)
  /\ (is_Some (s !! lit "s1") -> is_Some (s' !! lit "s1")).
Proof.
  cbv zeta.
  apply (X8_transcripts_only_grow _ _ (lit "s1")).
  eapply (later_step _
            (fun _ _ => Return (lit "Answer: yes Context: because"))
            {| query := lit "q1"; session_id := lit "s1" |});
    [|apply later_refl]; reflexivity.
Defined.

(** X9: sessions are isolated: the response to a request, and the transcript
    of its session afterwards, depend on the dictionary only through that
    session's transcript, whatever the other sessions hold. *)
Theorem X9_session_isolation
    (generate : list N -> list N -> result (list N)) (req : FarmerQuery)
    (s1 s2 : gmap (list N) (list Exchange)) :
  get_history s1 (session_id req) = get_history s2 (session_id req) ->
  fst (farmer_husbandry_assistant generate req s1)
  = fst (farmer_husbandry_assistant generate req s2)
  /\ get_history (snd (farmer_husbandry_assistant generate req s1)) (session_id req)
     = get_history (snd (farmer_husbandry_assistant generate req s2)) (session_id req).
Proof.
  intros E. unfold farmer_husbandry_assistant. rewrite E.
  destruct (attempt generate _) as [[a c]|e]; cbn [fst snd].
  - split; [reflexivity|]. now rewrite !get_history_append_eq, E.
  - split; [reflexivity | exact E].
Qed.

Lemma X9_session_isolation_witness :
  let g : list N -> list N -> result (list N) :=
    fun _ p => Return (lit "Answer: " ++ p ++ lit " Context: because") in
  let req := {| query := lit "q1"; session_id := lit "s1" |} in
  let s2 : gmap (list N) (list Exchange) :=
    {[ lit "s2" := [{| item_query := lit "q0"; item_answer := lit "a0" |}] ]} in
  fst (farmer_husbandry_assistant g req ∅) = fst (farmer_husbandry_assistant g req s2)
  /\ get_history (snd (farmer_husbandry_assistant g req ∅)) (session_id req)
     = get_history (snd (farmer_husbandry_assistant g req s2)) (session_id req).
Proof.
  cbv zeta.
  apply (X9_session_isolation
           (fun _ p => Return (lit "Answer: " ++ p ++ lit " Context: because"))
           {| query := lit "q1"; session_id := lit "s1" |}
           ∅
           {[ lit "s2" := [{| item_query := lit "q0"; item_answer := lit "a0" |}] ]}).
  reflexivity.
Defined.

Lemma join_snoc (sep : list N) (x : list N) (parts : list (list N)) (p : list N) :
  join sep ((x :: parts) ++ [p]) = join sep (x :: parts) ++ sep ++ p.
Proof.
  revert x. induction parts as [|y parts IH]; intros x; [reflexivity|].
  change (join sep ((x :: y :: parts) ++ [p]))
    with (x ++ sep ++ join sep ((y :: parts) ++ [p])).
  change (join sep (x :: y :: parts)) with (x ++ sep ++ join sep (y :: parts)).
  rewrite IH. now rewrite <- !app_assoc.
Qed.

Lemma previous_context_text_snoc (h0 : Exchange) (history : list Exchange)
    (item : Exchange) :
  previous_context_text ((h0 :: history) ++ [item])
  = previous_context_text (h0 :: history) ++ nl ++ render_item item.
Proof.
  change (previous_context_text ((h0 :: history) ++ [item]))
    with (previous_conversation_header
          ++ join nl (List.map render_item ((h0 :: history) ++ [item]))).
  change (previous_context_text (h0 :: history))
    with (previous_conversation_header
          ++ join nl (List.map render_item (h0 :: history))).
  rewrite List.map_app.
  change (List.map render_item (h0 :: history))
    with (render_item h0 :: List.map render_item history).
  change (List.map render_item [item]) with [render_item item].
  rewrite join_snoc. now rewrite <- !app_assoc.
Qed.

(** X10: nothing is ever cut from the history: one more stored exchange
    makes the prompt longer by the whole exchange, its query and its answer
    with their 13 characters of labels, and by the 23 characters of the
    header when it is the first exchange, by one line break otherwise. *)
Theorem X10_prompt_grows_with_history (q : list N) (history : list Exchange)
    (item : Exchange) :
  length (build_prompt q (history ++ [item]))
  = length (build_prompt q history)
    + 13 + length (item_query item) + length (item_answer item)
    + match history with [] => 23 | _ :: _ => 1 end.
Proof.
  rewrite !build_prompt_eq.
  assert (P : length (previous_context_text (history ++ [item]))
              = length (previous_context_text history)
                + 13 + length (item_query item) + length (item_answer item)
                + match history with [] => 23 | _ :: _ => 1 end).
  { destruct history as [|h0 history].
    - simpl. unfold render_item. rewrite !length_app. simpl. lia.
    - rewrite previous_context_text_snoc. unfold render_item.
      rewrite !length_app. simpl. lia. }
  rewrite !length_app, P. lia.
Qed.

Lemma returned_exchange_in_later_prompt
    (s s2 : gmap (list N) (list Exchange)) (sid q a q2 : list N) :
  later (append_exchange s sid {| item_query := q; item_answer := a |}) s2 ->
  exists x y,
    build_prompt q2 (get_history s2 sid)
    = x ++ (lit "Farmer: " ++ q ++ nl ++ lit "AI: " ++ a) ++ y.
Proof.
  intros L.
  apply (later_prompt_includes _ _ sid
           {| item_query := q; item_answer := a |}
           (length (get_history s sid)) q2) in L.
  - destruct L as (x & y & P). exists x, y. rewrite P.
    unfold render_item. cbn [item_query item_answer].
    change ai_line with (nl ++ lit "AI: ").
    now rewrite <- !app_assoc.
  - rewrite get_history_append_eq. apply list_lookup_middle. reflexivity.
Qed.

(** X11: a provider failure is written into the conversation: after a request
    whose provider call raised a GoogleAPIError, every later prompt of that
    session shows the query followed by the fallback apology as the AI's
    answer. *)
Theorem X11_fallback_fed_back
    (generate : list N -> list N -> result (list N)) (req : FarmerQuery)
    (s s2 : gmap (list N) (list Exchange)) (e : exn) (q2 : list N) :
  generate model_name (build_prompt (query req) (get_history s (session_id req)))
  = Raise e ->
  is_GoogleAPIError e = true ->
  later (snd (farmer_husbandry_assistant generate req s)) s2 ->
  exists x y,
    build_prompt q2 (get_history s2 (session_id req))
    = x ++ (lit "Farmer: " ++ query req ++ nl
            ++ lit "AI: Sorry, I am unable to answer your query right now.") ++ y.
Proof.
  intros G He. unfold farmer_husbandry_assistant.
  pose proof (attempt_cases generate
                (build_prompt (query req) (get_history s (session_id req)))) as A.
  rewrite G, He in A. rewrite A. cbn [snd].
  intros L. exact (returned_exchange_in_later_prompt _ _ _ _ _ q2 L).
Qed.

Lemma X11_fallback_fed_back_witness :
  let g : list N -> list N -> result (list N) :=
    fun _ _ => Raise (GoogleAPIError (lit "429 quota")) in
  let req := {| query := lit "q1"; session_id := lit "s1" |} in
  exists x y,
    build_prompt (lit "q2")
      (get_history (snd (farmer_husbandry_assistant g req ∅)) (session_id req))
    = x ++ (lit "Farmer: " ++ query req ++ nl
            ++ lit "AI: Sorry, I am unable to answer your query right now.") ++ y.
Proof.
  cbv zeta.
  eapply (X11_fallback_fed_back
           (fun _ _ => Raise (GoogleAPIError (lit "429 quota")))
           {| query := lit "q1"; session_id := lit "s1" |}
           ∅ _ (GoogleAPIError (lit "429 quota")) (lit "q2")).
  - reflexivity.
  - reflexivity.
  - apply later_refl.
Defined.



(** X13: in every dictionary that requests lead to from the empty one, each
    stored answer is whitespace-trimmed. *)
Theorem X13_stored_answers_trimmed (s : gmap (list N) (list Exchange))
    (sid : list N) (l : list Exchange) (i : nat) (item : Exchange) :
  later ∅ s -> s !! sid = Some l -> l !! i = Some item ->
  strip (item_answer item) = item_answer item.
Proof.
  intros L. revert sid l i item.
  apply (later_invariant
           (fun m => forall sid l i item,
                m !! sid = Some l -> l !! i = Some item ->
                strip (item_answer item) = item_answer item)) with (s := ∅);
    [|exact L|].
  - intros generate req m r m' Pm H sid l i item Hl Hi.
    apply handler_step_cases in H as [->|(a & c & A & ->)];
      [exact (Pm _ _ _ _ Hl Hi)|].
    apply lookup_append_exchange in Hl as [[_ ->]|[_ Hl]];
      [|exact (Pm _ _ _ _ Hl Hi)].
    apply lookup_app_Some in Hi as [Hi|[_ Hi]].
    + unfold get_history in Hi.
      destruct (m !! session_id req) as [l0|] eqn:E; [|discriminate].
      exact (Pm _ _ _ _ E Hi).
    + apply list_lookup_singleton_Some in Hi as [_ <-]. cbn [item_answer].
      apply attempt_trimmed in A. tauto.
  - intros sid l i item H. rewrite lookup_empty in H. discriminate.
Qed.

Lemma X13_stored_answers_trimmed_witness :
  strip (lit "yes") = lit "yes".
Proof.
  apply (X13_stored_answers_trimmed
           (snd (farmer_husbandry_assistant
                   (fun _ _ => Return (lit " Answer: yes  Context: because"))
                   {| query := lit " q1 "; session_id := lit "s1" |} ∅))
           (lit "s1")
           [{| item_query := lit " q1 "; item_answer := lit "yes" |}]
           0
           {| item_query := lit " q1 "; item_answer := lit "yes" |}).
  - eapply (later_step ∅
              (fun _ _ => Return (lit " Answer: yes  Context: because"))
              {| query := lit " q1 "; session_id := lit "s1" |});
      [|apply later_refl]; reflexivity.
  - reflexivity.
  - reflexivity.
Defined.

(** X14: [find] gives the first position at which the marker starts: the
    marker starts there and at no earlier position; and it gives nothing only
    when the marker starts at no position at all. *)
Theorem X14_find_first_position (m s : list N) :
  match find m s with
  | Some i =>
      startswith m (drop i s) = true
      /\ forall j, j < i -> startswith m (drop j s) = false
  | None => forall j, startswith m (drop j s) = false
  end.
Proof.
  induction s as [|c s IH].
  - simpl. destruct (startswith m []) eqn:E.
    + split; [exact E | intros j Hj; lia].
    + intros j. now rewrite drop_nil.
  - change (find m (c :: s))
      with (if startswith m (c :: s) then Some 0 else option_map S (find m s)).
    destruct (startswith m (c :: s)) eqn:E.
    + split; [exact E | intros j Hj; lia].
    + destruct (find m s) as [i|]; simpl.
      * destruct IH as [IH1 IH2]. split; [exact IH1|].
        intros [|j] Hj; [exact E | apply IH2; lia].
      * intros [|j]; [exact E | apply IH].
Qed.

(** X15: [strip] removes whitespace from the two ends and nothing else: the
    string is its stripped form between two runs of whitespace
    characters. *)
Theorem X15_strip_removes_only_whitespace (s : list N) :
  exists ws1 ws2,
    s = ws1 ++ strip s ++ ws2
    /\ forallb isspace ws1 = true /\ forallb isspace ws2 = true.
Proof.
  destruct (lstrip_decomp s) as [ws1 [E1 F1]].
  destruct (rstrip_decomp (lstrip s)) as [ws2 [E2 F2]].
  exists ws1, ws2. unfold strip. now rewrite <- E2.
Qed.

(** X16: a model output that is empty or all whitespace is not rejected: the
    splitter returns the empty answer with the generic context. *)
Theorem X16_blank_output_empty_answer (text : list N) :
  forallb isspace text = true ->
  split_response text = Return ([], generic_context).
Proof.
  intros H. unfold split_response, strip.
  rewrite (lstrip_all_spaces text H). reflexivity.
Qed.

Lemma X16_blank_output_empty_answer_witness :
  split_response (lit "   " ++ nl) = Return ([], generic_context).
Proof.
  exact (X16_blank_output_empty_answer (lit "   " ++ nl) eq_refl).
Defined.
